(** * Gaussian process regression notebook: a shallow embedding

    The development follows the code cells of
    [Gaussian_Process_Regression_in_TF2_0__TensorFlow_Probability].
    Numbers are modelled as reals ([R]); where the sign bit of a [float64]
    zero decides the behaviour it is modelled, and [tf.nn.softplus], which
    underflows and rounds, is a library function known by what holds of its
    [float64] values only.  NumPy's global random state is
    threaded explicitly, the TensorFlow variables, the optimizer and the
    [nlls] array live in an explicit notebook state, and the calls into
    TensorFlow and TensorFlow Probability (softplus, the kernel, the
    log-density of a Gaussian process, automatic differentiation, the Adam
    update) are the fields of an interface: their code is the library's,
    not the notebook's. *)

From Stdlib Require Import String.
From Stdlib Require Import Reals Lra Lia List Arith.
Import ListNotations.
Local Open Scope R_scope.

(** ** Outcomes of a Python call *)

(** A call either returns a value or raises an exception, named by its
    class. *)
Inductive outcome (A : Type) : Type :=
| Returns (a : A)
| Raises (cls : string).
Arguments Returns {A} a.
Arguments Raises {A} cls.

(** ** NumPy / TensorFlow primitives *)

(** A two-dimensional [np.ndarray]: its second shape component and its rows. *)
Record ndarray2 : Type := mk_ndarray2 {
  ncols : nat;
  rows : list (list R)
}.

(** Every row has [ncols] entries. *)
Definition rectangular (x : ndarray2) : Prop :=
  Forall (fun r => length r = ncols x) (rows x).

(** A [float64] argument that is not negative: [+0.0], [-0.0] or a positive
    number.  The two zeros differ in their sign bit only. *)
Inductive nonneg_float : Type :=
| PlusZero
| MinusZero
| Positive (r : posreal).

(** The number a [nonneg_float] stands for. *)
Definition value (x : nonneg_float) : R :=
  match x with
  | PlusZero => 0
  | MinusZero => 0
  | Positive r => pos r
  end.

Module Np.

(** [np.finfo(np.float64).tiny], the smallest positive normal double,
    [2 ** -1022]. *)
Definition tiny : R := / (2 ^ 1022).

(** [np.sqrt] on an argument that is not negative; [np.sqrt(-0.0)] is
    [-0.0]. *)
Definition sqrt_float (x : nonneg_float) : nonneg_float :=
  match x with
  | PlusZero => PlusZero
  | MinusZero => MinusZero
  | Positive r => Positive (mkposreal (sqrt r) (sqrt_lt_R0 r (cond_pos r)))
  end.

(** [np.linspace(start, stop, num)]: [num] evenly spaced samples, both
    ends included. *)
Definition linspace (start stop : R) (num : nat) : list R :=
  map (fun i => start + INR i * ((stop - start) / INR (num - 1)))
      (seq 0 num).

(** [x[..., np.newaxis]] on a one-dimensional array. *)
Definition newaxis (x : list R) : ndarray2 :=
  {| ncols := 1; rows := map (fun v => [v]) x |}.

(** Elementwise [a + b] of two one-dimensional arrays of equal length. *)
Definition add (a b : list R) : list R :=
  map (fun p => fst p + snd p) (combine a b).

(** The global [np.random] generator: a state and its two elementary
    draws, a uniform sample of [[0, 1)] and a standard normal sample. *)
Class RandomState : Type := {
  rng : Type;
  random_sample : rng -> R * rng;
  standard_normal : rng -> R * rng
}.

(** [n] successive draws. *)
Fixpoint draws {S : Type} (gen : S -> R * S) (n : nat) (s : S)
  : list R * S :=
  match n with
  | O => ([], s)
  | S k =>
      let (x, s1) := gen s in
      let (xs, s2) := draws gen k s1 in
      (x :: xs, s2)
  end.

(** [np.random.uniform(low, high, (n, 1))]:
    [low + (high - low) * random_sample()] per entry. *)
Definition uniform `{RandomState} (low high : R) (n : nat) (s : rng)
  : ndarray2 * rng :=
  let (us, s') := draws random_sample n s in
  (newaxis (map (fun u => low + (high - low) * u) us), s').

(** [np.random.normal(loc, scale, size=n)]: a scale whose sign bit is set
    raises [ValueError] before anything is drawn; otherwise
    [loc + scale * standard_normal()] per entry. *)
Definition normal `{RandomState} (loc : R) (scale : nonneg_float)
    (n : nat) (s : rng) : outcome (list R) * rng :=
  match scale with
  | MinusZero => (Raises "ValueError", s)
  | _ =>
      let (zs, s') := draws standard_normal n s in
      (Returns (map (fun z => loc + value scale * z) zs), s')
  end.

End Np.

(** ** Data generation *)

(** [sinusoid(x) = np.sin(3 * np.pi * x[..., 0])]; indexing column 0 of an
    array without columns raises [IndexError]. *)
Definition sinusoid (x : ndarray2) : outcome (list R) :=
  if Nat.eqb (ncols x) 0 then Raises "IndexError"
  else Returns (map (fun r => sin (3 * PI * nth 0 r 0)) (rows x)).

(** [generate_1d_data(num_training_points, observation_noise_variance)]:
    uniform index points of shape [(n, 1)], then the sinusoid plus normal
    noise of scale [np.sqrt(observation_noise_variance)].  The model covers
    a variance that is not negative, the two zeros included. *)
Definition generate_1d_data `{Np.RandomState}
    (num_training_points : nat) (observation_noise_variance : nonneg_float)
    (s : Np.rng) : outcome (ndarray2 * list R) * Np.rng :=
  let (index_points_, s1) := Np.uniform (-1) 1 num_training_points s in
  match sinusoid index_points_ with
  | Raises cls => (Raises cls, s1)
  | Returns clean =>
      match Np.normal 0 (Np.sqrt_float observation_noise_variance)
                      num_training_points s1 with
      | (Raises cls, s2) => (Raises cls, s2)
      | (Returns noise, s2) =>
          (Returns (index_points_, Np.add clean noise), s2)
      end
  end.

Definition NUM_TRAINING_POINTS : nat := 100.

(** ** The illustrated covariance function *)

(** Squared Euclidean distance of two rows, as
    [scipy.spatial.distance.cdist(_, _, 'sqeuclidean')] computes it. *)
Definition sqeuclidean (u v : list R) : R :=
  fold_right Rplus 0 (map (fun p => (fst p - snd p) ^ 2) (combine u v)).

(** [cdist(xa, xb, 'sqeuclidean')]: all pairwise distances; arrays with
    different numbers of columns raise [ValueError]. *)
Definition cdist_sqeuclidean (xa xb : ndarray2) : outcome ndarray2 :=
  if Nat.eqb (ncols xa) (ncols xb) then
    Returns {| ncols := length (rows xb);
               rows := map (fun u => map (sqeuclidean u) (rows xb)) (rows xa) |}
  else Raises "ValueError".

(** [exponentiated_quadratic(xa, xb) = np.exp(-0.5 * cdist(xa, xb, 'sqeuclidean'))]. *)
Definition exponentiated_quadratic (xa xb : ndarray2) : outcome ndarray2 :=
  match cdist_sqeuclidean xa xb with
  | Returns d =>
      Returns {| ncols := ncols d;
                 rows := map (map (fun t => exp (- 0.5 * t))) (rows d) |}
  | Raises cls => Raises cls
  end.

(** The two closed forms the function is compared with;
    [sq_norm (vsub x x')] is [||x - x'||^2]. *)
Definition vsub (x x' : list R) : list R :=
  map (fun p => fst p - snd p) (combine x x').

Definition sq_norm (x : list R) : R :=
  fold_right Rplus 0 (map (fun t => t * t) x).

(** The formula of the specification: [sigma^2 * exp(-||x-x'||^2 / lambda^2)]. *)
Definition spec_kernel (sigma lambda : R) (x x' : list R) : R :=
  sigma ^ 2 * exp (- sq_norm (vsub x x') / lambda ^ 2).

(** The squared-exponential kernel with the factor one half:
    [sigma^2 * exp(-||x-x'||^2 / (2 * lambda^2))]. *)
Definition rbf_kernel (sigma lambda : R) (x x' : list R) : R :=
  sigma ^ 2 * exp (- sq_norm (vsub x x') / (2 * lambda ^ 2)).

(** The Gram matrix of a kernel function. *)
Definition gram (k : list R -> list R -> R) (xa xb : ndarray2) : ndarray2 :=
  {| ncols := length (rows xb);
     rows := map (fun u => map (k u) (rows xb)) (rows xa) |}.

(** ** The TensorFlow Probability objects the notebook builds *)

(** [tfk.ExponentiatedQuadratic(amplitude, length_scale)]. *)
Module ExponentiatedQuadratic.
Record t : Type := make {
  amplitude : R;
  length_scale : R
}.
End ExponentiatedQuadratic.

(** [tfd.GaussianProcess(kernel, index_points, observation_noise_variance)]. *)
Module GaussianProcess.
Record t : Type := make {
  kernel : ExponentiatedQuadratic.t;
  index_points : ndarray2;
  observation_noise_variance : R
}.
End GaussianProcess.

(** [tfd.GaussianProcessRegressionModel(...)], with the six keyword
    arguments the notebook passes. *)
Module GaussianProcessRegressionModel.
Record t : Type := make {
  kernel : ExponentiatedQuadratic.t;
  index_points : ndarray2;
  observation_index_points : ndarray2;
  observations : list R;
  observation_noise_variance : R;
  predictive_noise_variance : R
}.
End GaussianProcessRegressionModel.

(** The three trainable [tf.Variable]s. *)
Record Variables : Type := mk_Variables {
  amplitude_ : R;
  length_scale_ : R;
  observation_noise_variance_ : R
}.

(** The training data, fixed once generated. *)
Record Data : Type := mk_Data {
  observation_index_points_ : ndarray2;
  observations_ : list R
}.

(** What the notebook delegates to TensorFlow and TensorFlow Probability. *)
Class TFP : Type := {
  (** [tf.nn.softplus] on [float64]: documented as [log(exp(x) + 1)]; its
      values are never negative (they are [0.0] where [exp] underflows) and
      never decrease when the argument grows *)
  softplus : R -> R;
  softplus_nonneg : forall x : R, 0 <= softplus x;
  softplus_monotone : forall x y : R, x <= y -> softplus x <= softplus y;
  (** the value [k(x, x')] of a [tfk.ExponentiatedQuadratic] kernel *)
  apply : ExponentiatedQuadratic.t -> list R -> list R -> R;
  (** [gp.log_prob(observations)] *)
  log_prob : GaussianProcess.t -> list R -> R;
  (** [tape.gradient(loss, [amplitude_, length_scale_,
      observation_noise_variance_])]: the gradient of the taped function at
      the current values of the variables *)
  tape_gradient : (Variables -> R) -> Variables -> Variables;
  (** the slots of [tf.keras.optimizers.Adam] and one
      [optimizer.apply_gradients] *)
  Adam : Type;
  Adam_init : R -> Adam;
  Adam_apply_gradients : Adam -> Variables -> Variables -> Adam * Variables
}.

(** ** Kernel hyperparameter transform

    The three lines that open [neg_log_likelihood], repeated after training:
    [np.finfo(np.float64).tiny + tf.nn.softplus(v_)]. *)

Definition constrain `{TFP} (v_ : R) : R := Np.tiny + softplus v_.








(** ** Negative log marginal likelihood *)

(** The body of [neg_log_likelihood] as a function of the values of the
    three variables. *)
Definition neg_log_likelihood_at `{TFP} (d : Data) (v : Variables) : R :=
  let amplitude := constrain (amplitude_ v) in
  let length_scale := constrain (length_scale_ v) in
  let observation_noise_variance :=
    constrain (observation_noise_variance_ v) in
  let kernel := ExponentiatedQuadratic.make amplitude length_scale in
  let gp :=
    GaussianProcess.make kernel (observation_index_points_ d)
                         observation_noise_variance in
  - log_prob gp (observations_ d).

(** ** The notebook state and its monad *)

(** Calls into the library, in the order they are made. *)
Inductive call : Type := LogProb | TapeGradient | ApplyGradients.

Definition call_eq_dec (a b : call) : {a = b} + {a <> b}.
Proof. decide equality. Defined.

Record notebook `{TFP} : Type := mk_notebook {
  variables : Variables;
  optimizer : Adam;
  nlls : list R;
  calls : list call
}.

(** State and exceptions. *)
Definition M `{TFP} (A : Type) : Type := notebook -> outcome (A * notebook).

Definition ret `{TFP} {A : Type} (a : A) : M A := fun nb => Returns (a, nb).

Definition bind `{TFP} {A B : Type} (c : M A) (k : A -> M B) : M B :=
  fun nb =>
    match c nb with
    | Returns (a, nb') => k a nb'
    | Raises cls => Raises cls
    end.

Notation "x <- c ;; k" := (bind c (fun x => k))
  (at level 61, c at next level, right associativity).
Notation "c ;; k" := (bind c (fun _ => k))
  (at level 61, right associativity).

Definition record_call `{TFP} (c : call) : M unit :=
  fun nb =>
    Returns (tt, {| variables := variables nb; optimizer := optimizer nb;
                    nlls := nlls nb; calls := calls nb ++ [c] |}).

(** [a[i] = v] on a one-dimensional array; [None] when [i] is out of
    range. *)
Fixpoint setitem (a : list R) (i : nat) (v : R) : option (list R) :=
  match a, i with
  | [], _ => None
  | _ :: t, O => Some (v :: t)
  | h :: t, S k =>
      match setitem t k v with
      | Some t' => Some (h :: t')
      | None => None
      end
  end.

(** [nlls = np.zeros(num_iters, np.float64)]. *)
Definition alloc_nlls `{TFP} (n : nat) : M unit :=
  fun nb =>
    Returns (tt, {| variables := variables nb; optimizer := optimizer nb;
                    nlls := repeat 0 n; calls := calls nb |}).

(** [nlls[i] = v]; an index out of range raises [IndexError]. *)
Definition store_nll `{TFP} (i : nat) (v : R) : M unit :=
  fun nb =>
    match setitem (nlls nb) i v with
    | Some a =>
        Returns (tt, {| variables := variables nb; optimizer := optimizer nb;
                        nlls := a; calls := calls nb |})
    | None => Raises "IndexError"
    end.

(** [neg_log_likelihood()]: reads the three variables, evaluates the
    log-density, changes nothing. *)
Definition neg_log_likelihood `{TFP} (d : Data) : M R :=
  record_call LogProb ;;
  fun nb => Returns (neg_log_likelihood_at d (variables nb), nb).

(** [tape.gradient(loss, [...])] after [loss = neg_log_likelihood()] under
    the tape. *)
Definition gradient `{TFP} (d : Data) : M Variables :=
  record_call TapeGradient ;;
  fun nb =>
    Returns (tape_gradient (neg_log_likelihood_at d) (variables nb), nb).

(** [optimizer.apply_gradients(zip(grads, [...]))]. *)
Definition apply_gradients `{TFP} (grads : Variables) : M unit :=
  record_call ApplyGradients ;;
  fun nb =>
    let (o, v) := Adam_apply_gradients (optimizer nb) grads (variables nb) in
    Returns (tt, {| variables := v; optimizer := o;
                    nlls := nlls nb; calls := calls nb |}).

(** ** The fitting loop *)

Definition num_iters : nat := 1000.

(** One pass of the body of [for i in range(num_iters)]. *)
Definition train_step `{TFP} (d : Data) (i : nat) : M unit :=
  v <- neg_log_likelihood d ;;
  store_nll i v ;;
  loss <- neg_log_likelihood d ;;
  grads <- gradient d ;;
  apply_gradients grads.

(** [for i in range(start, start + count): body(i)]. *)
Fixpoint for_range `{TFP} (body : nat -> M unit) (start count : nat)
  : M unit :=
  match count with
  | O => ret tt
  | S k => body start ;; for_range body (S start) k
  end.

Definition training_loop `{TFP} (d : Data) : M unit :=
  alloc_nlls num_iters ;;
  for_range (train_step d) 0 num_iters.

(** The state the notebook has when the loop starts. *)
Definition initial_notebook `{TFP} : notebook :=
  {| variables := {| amplitude_ := 1; length_scale_ := 1;
                     observation_noise_variance_ := 1e-6 |};
     optimizer := Adam_init 0.01;
     nlls := [];
     calls := [] |}.

(** What one iteration does to the optimizer and the variables. *)
Definition adam_step `{TFP} (d : Data) (s : Adam * Variables)
  : Adam * Variables :=
  Adam_apply_gradients (fst s)
    (tape_gradient (neg_log_likelihood_at d) (snd s)) (snd s).

(** The library calls of one iteration. *)
Definition iteration_calls : list call :=
  [LogProb; LogProb; TapeGradient; ApplyGradients].

Definition optimizer_steps (cs : list call) : nat :=
  count_occ call_eq_dec cs ApplyGradients.

(** ** The posterior predictive models *)

Definition predictive_index_points_ : ndarray2 :=
  Np.newaxis (Np.linspace (-1.2) 1.2 200).

(** The model built from the trained variables. *)
Definition gprm `{TFP} (d : Data) (v : Variables)
  : GaussianProcessRegressionModel.t :=
  let amplitude := constrain (amplitude_ v) in
  let length_scale := constrain (length_scale_ v) in
  let observation_noise_variance :=
    constrain (observation_noise_variance_ v) in
  let kernel := ExponentiatedQuadratic.make amplitude length_scale in
  GaussianProcessRegressionModel.make
    kernel predictive_index_points_ (observation_index_points_ d)
    (observations_ d) observation_noise_variance 0.

(** Broadcasting of two batch sizes: equal sizes stay, a size of one gives
    way to the other, anything else is incompatible. *)
Definition broadcast_size (a b : nat) : option nat :=
  if Nat.eqb a b then Some a
  else if Nat.eqb a 1 then Some b
  else if Nat.eqb b 1 then Some a
  else None.

(** A chain seen at batch size [n]: itself when it has [n] entries, its
    single entry repeated when it has one. *)
Definition broadcast_to (n : nat) (c : list R) : list R :=
  if Nat.eqb (length c) n then c else repeat (hd 0 c) n.

(** The model built from the chains of hyperparameter samples: a batch, one
    member per sample.  The three chains are broadcast against each other;
    [None] stands for the library's refusal of incompatible batch shapes. *)
Definition gprm_mcmc (d : Data)
    (amplitudes length_scales observation_noise_variances : list R)
  : option (list GaussianProcessRegressionModel.t) :=
  match broadcast_size (length amplitudes) (length length_scales) with
  | None => None
  | Some m =>
      match broadcast_size m (length observation_noise_variances) with
      | None => None
      | Some n =>
          Some (map (fun s =>
                       GaussianProcessRegressionModel.make
                         (ExponentiatedQuadratic.make (fst (fst s))
                                                      (snd (fst s)))
                         predictive_index_points_
                         (observation_index_points_ d)
                         (observations_ d) (snd s) 0)
                    (combine (combine (broadcast_to n amplitudes)
                                      (broadcast_to n length_scales))
                             (broadcast_to n observation_noise_variances)))
      end
  end.

(** ** Further cells of the notebook *)

(** [m[i, j]], for indices in range. *)
Definition entry (m : ndarray2) (i j : nat) : R :=
  nth j (nth i (rows m) []) 0.

(** The kernel re-defined from the trained variables:
    [kernel = tfk.ExponentiatedQuadratic(amplitude, length_scale)] with the
    constrained amplitude and length scale. *)
Definition kernel `{TFP} (v : Variables) : ExponentiatedQuadratic.t :=
  ExponentiatedQuadratic.make (constrain (amplitude_ v))
                              (constrain (length_scale_ v)).

(** The [gp] that [neg_log_likelihood] builds from the three variables. *)
Definition gp `{TFP} (d : Data) (v : Variables) : GaussianProcess.t :=
  GaussianProcess.make (kernel v) (observation_index_points_ d)
                       (constrain (observation_noise_variance_ v)).

(** [tfd.LogNormal(loc, scale).log_prob(x)], the library's log-density of
    the prior on a hyperparameter. *)
Class LogNormal : Type := {
  LogNormal_log_prob : R -> R -> R -> R
}.

(** [joint_log_prob(index_points, observations, amplitude, length_scale,
    noise_variance)]: three log-normal priors plus the log-density of the
    observations under the Gaussian process. *)
Definition joint_log_prob `{TFP} `{LogNormal}
    (index_points : ndarray2) (observations : list R)
    (amplitude length_scale noise_variance : R) : R :=
  let rv_amplitude := LogNormal_log_prob 0 1 in
  let rv_length_scale := LogNormal_log_prob 0 1 in
  let rv_noise_variance := LogNormal_log_prob 0 1 in
  let gp :=
    GaussianProcess.make
      (ExponentiatedQuadratic.make amplitude length_scale)
      index_points noise_variance in
  rv_amplitude amplitude
  + rv_length_scale length_scale
  + rv_noise_variance noise_variance
  + log_prob gp observations.

(** [unnormalized_log_posterior(amplitude, length_scale, noise_variance)]. *)
Definition unnormalized_log_posterior `{TFP} `{LogNormal} (d : Data)
    (amplitude length_scale noise_variance : R) : R :=
  joint_log_prob (observation_index_points_ d) (observations_ d)
                 amplitude length_scale noise_variance.

(** [np.transpose] of a two-dimensional array. *)
Definition transpose (x : ndarray2) : ndarray2 :=
  {| ncols := length (rows x);
     rows := map (fun j => map (fun r => nth j r 0) (rows x))
                 (seq 0 (ncols x)) |}.





(** A library for concrete runs: a softplus that is [0] everywhere, the
    constant kernel [1], a constant log-density, a gradient equal to the
    point it is taken at, and an optimizer without slots that subtracts the
    gradient. *)
Definition constant_library : TFP := {|
  softplus := fun _ => 0;
  softplus_nonneg := fun _ => Rle_refl 0;
  softplus_monotone := fun _ _ _ => Rle_refl 0;
  apply := fun _ _ _ => 1;
  log_prob := fun _ _ => 0;
  tape_gradient := fun _ v => v;
  Adam := unit;
  Adam_init := fun _ => tt;
  Adam_apply_gradients := fun o g v =>
    (o, {| amplitude_ := amplitude_ v - amplitude_ g;
           length_scale_ := length_scale_ v - length_scale_ g;
           observation_noise_variance_ :=
             observation_noise_variance_ v - observation_noise_variance_ g |})
|}.







(** A generator for concrete runs: every uniform draw is [1/2], every
    normal draw is [1]; the state counts the draws. *)
#[local] Instance fixed_draws : Np.RandomState := {|
  Np.rng := nat;
  Np.random_sample := fun s => (1 / 2, S s);
  Np.standard_normal := fun s => (1, S s)
|}.

(** * Properties *)

(** ** The hyperparameter transform *)

Lemma tiny_pos : 0 < Np.tiny.
Proof.
  unfold Np.tiny. apply Rinv_0_lt_compat. apply pow_lt. lra.
Qed.

Lemma constrain_floor `{TFP} (x : R) : Np.tiny <= constrain x.
Proof.
  unfold constrain. pose proof (softplus_nonneg x). lra.
Qed.

Lemma constrain_pos `{TFP} (x : R) : 0 < constrain x.
Proof.
  pose proof tiny_pos. pose proof (constrain_floor x). lra.
Qed.




(** ** The covariance function *)

Lemma sqeuclidean_sq_norm (u v : list R) :
  sqeuclidean u v = sq_norm (vsub u v).
Proof.
  unfold sqeuclidean, sq_norm, vsub.
  induction (combine u v) as [|p l IH]; cbn [map fold_right];
    [reflexivity|].
  rewrite IH. ring.
Qed.

Lemma exp_half_rbf (u v : list R) :
  exp (- 0.5 * sqeuclidean u v) = rbf_kernel 1 1 u v.
Proof.
  unfold rbf_kernel. rewrite sqeuclidean_sq_norm.
  replace (- sq_norm (vsub u v) / (2 * 1 ^ 2))
    with (- 0.5 * sq_norm (vsub u v)) by lra.
  ring.
Qed.

(** C2 (as amended): on arrays with the same number of columns the
    covariance function of the notebook returns the Gram matrix of
    [exp(-||x - x'||^2 / 2)], the squared-exponential kernel
    [sigma^2 * exp(-||x - x'||^2 / (2 * lambda^2))] at [sigma = lambda = 1]. *)
Theorem exponentiated_quadratic_is_rbf (xa xb : ndarray2) :
  ncols xa = ncols xb ->
  exponentiated_quadratic xa xb = Returns (gram (rbf_kernel 1 1) xa xb).
Proof.
  intros Hc. unfold exponentiated_quadratic, cdist_sqeuclidean, gram.
  rewrite Hc, Nat.eqb_refl. cbn [ncols rows].
  f_equal. f_equal.
  rewrite map_map. apply map_ext. intros u.
  rewrite map_map. apply map_ext. intros v.
  apply exp_half_rbf.
Qed.

Lemma exponentiated_quadratic_is_rbf_witness :
  ncols (mk_ndarray2 1 [[0]; [1]]) = ncols (mk_ndarray2 1 [[2]]) /\
  exponentiated_quadratic (mk_ndarray2 1 [[0]; [1]]) (mk_ndarray2 1 [[2]])
  = Returns (gram (rbf_kernel 1 1)
                  (mk_ndarray2 1 [[0]; [1]]) (mk_ndarray2 1 [[2]])).
Proof.
  split; [reflexivity | apply exponentiated_quadratic_is_rbf; reflexivity].
Defined.

(** C2 (counterexample): at [x = (0)] and [x' = (1)] the notebook's function
    returns [exp(-1/2)], not the [1^2 * exp(-1 / 1^2)] of the stated
    formula. *)
Lemma exponentiated_quadratic_not_spec_kernel :
  exponentiated_quadratic (mk_ndarray2 1 [[0]]) (mk_ndarray2 1 [[1]])
  <> Returns (gram (spec_kernel 1 1)
                   (mk_ndarray2 1 [[0]]) (mk_ndarray2 1 [[1]])).
Proof.
  unfold exponentiated_quadratic, cdist_sqeuclidean, gram. cbn.
  intros Heq. injection Heq as Heq.
  unfold spec_kernel, sqeuclidean, sq_norm, vsub in Heq. cbn in Heq.
  replace (- 0.5 * ((0 - 1) * ((0 - 1) * 1) + 0)) with (- (1 / 2)) in Heq
    by lra.
  replace (1 * (1 * 1) * exp (- ((0 - 1) * (0 - 1) + 0) / (1 * (1 * 1))))
    with (exp (- 1)) in Heq
    by (replace (- ((0 - 1) * (0 - 1) + 0) / (1 * (1 * 1))) with (- 1) by lra;
        ring).
  apply exp_inv in Heq. lra.
Qed.

(** ** Data generation *)

Lemma add_map_combine {A B : Type} (f : A -> R) (g : B -> R)
    (a : list A) (b : list B) :
  Np.add (map f a) (map g b)
  = map (fun p => f (fst p) + g (snd p)) (combine a b).
Proof.
  unfold Np.add. revert b.
  induction a as [|x a IH]; intros [|y b]; cbn; try reflexivity.
  f_equal. apply IH.
Qed.

Lemma draws_length {S : Type} (gen : S -> R * S) (n : nat) (s : S) :
  length (fst (Np.draws gen n s)) = n.
Proof.
  revert s. induction n as [|n IH]; intros s; cbn; [reflexivity|].
  destruct (gen s) as [x s1]. specialize (IH s1).
  destruct (Np.draws gen n s1) as [xs s2]. cbn in *. lia.
Qed.

(** The function unfolded: the only branch on the variance is the sign-bit
    check of [np.random.normal]. *)
Lemma generate_1d_data_eq `{Np.RandomState} (n : nat) (v : nonneg_float)
    (s : Np.rng) :
  let us := fst (Np.draws Np.random_sample n s) in
  let s1 := snd (Np.draws Np.random_sample n s) in
  let zs := fst (Np.draws Np.standard_normal n s1) in
  let s2 := snd (Np.draws Np.standard_normal n s1) in
  let xs := map (fun u => -1 + (1 - -1) * u) us in
  generate_1d_data n v s
  = match v with
    | MinusZero => (Raises "ValueError", s1)
    | _ =>
        (Returns (Np.newaxis xs,
                  map (fun p => sin (3 * PI * fst p)
                                + (0 + value (Np.sqrt_float v) * snd p))
                      (combine xs zs)),
         s2)
    end.
Proof.
  cbv zeta. unfold generate_1d_data, Np.uniform.
  destruct (Np.draws Np.random_sample n s) as [us s1]. cbn [fst snd].
  unfold sinusoid, Np.newaxis. cbn [ncols rows Nat.eqb].
  rewrite (map_map (fun v0 : R => [v0])). cbn [nth].
  destruct v as [| |r]; unfold Np.normal; cbn [Np.sqrt_float];
    try reflexivity;
    destruct (Np.draws Np.standard_normal n s1) as [zs s2]; cbn [fst snd];
    rewrite (add_map_combine (fun x => sin (3 * PI * x)));
    reflexivity.
Qed.



(** ** The fitting loop *)

Lemma setitem_in_range (a : list R) (i : nat) (v : R) :
  (i < length a)%nat ->
  setitem a i v = Some (firstn i a ++ v :: skipn (S i) a).
Proof.
  revert i. induction a as [|h t IH]; intros i Hi; cbn in Hi; [lia|].
  destruct i as [|k]; [reflexivity|].
  cbn [setitem]. rewrite IH by lia. reflexivity.
Qed.

Lemma firstn_succ_written (a : list R) (i : nat) (v : R) :
  (i < length a)%nat ->
  firstn (S i) (firstn i a ++ v :: skipn (S i) a) = firstn i a ++ [v].
Proof.
  intros Hi.
  assert (Hlen : length (firstn i a) = i) by (rewrite length_firstn; lia).
  rewrite firstn_app, Hlen.
  replace (S i - i)%nat with 1%nat by lia.
  rewrite firstn_all2 by lia. reflexivity.
Qed.

Lemma optimizer_steps_iterations (cs : list call) (n : nat) :
  optimizer_steps (cs ++ concat (repeat iteration_calls n))
  = (optimizer_steps cs + n)%nat.
Proof.
  unfold optimizer_steps. rewrite count_occ_app.
  induction n as [|n IH]; [reflexivity|].
  cbn [repeat concat]. rewrite count_occ_app.
  replace (count_occ call_eq_dec iteration_calls ApplyGradients)
    with 1%nat by reflexivity.
  lia.
Qed.

Section Fitting.

Context `{L : TFP}.
Variable d : Data.

(** One pass of the loop body: it returns when the index is in range,
    makes the four library calls, writes entry [i] and takes one optimizer
    step. *)
Lemma train_step_runs (i : nat) (nb : notebook) :
  (i < length (nlls nb))%nat ->
  exists nb',
    train_step d i nb = Returns (tt, nb')
    /\ calls nb' = calls nb ++ iteration_calls
    /\ (optimizer nb', variables nb')
       = adam_step d (optimizer nb, variables nb)
    /\ nlls nb'
       = firstn i (nlls nb)
         ++ neg_log_likelihood_at d (variables nb) :: skipn (S i) (nlls nb).
Proof.
  intros Hi.
  unfold train_step, neg_log_likelihood, gradient, apply_gradients,
    store_nll, record_call, bind. cbn.
  rewrite (setitem_in_range _ _ _ Hi). cbn.
  unfold adam_step. cbn [fst snd].
  destruct (Adam_apply_gradients (optimizer nb)
              (tape_gradient (neg_log_likelihood_at d) (variables nb))
              (variables nb)) as [o v].
  eexists. split; [reflexivity|]. cbn.
  repeat split.
  rewrite <- !app_assoc. reflexivity.
Qed.

(** The loop from index [i] with [n] passes left, on an array of [i + n]
    entries. *)
Lemma for_range_train_step (n : nat) :
  forall (i : nat) (nb : notebook),
    length (nlls nb) = (i + n)%nat ->
    exists nb',
      for_range (train_step d) i n nb = Returns (tt, nb')
      /\ calls nb' = calls nb ++ concat (repeat iteration_calls n)
      /\ (optimizer nb', variables nb')
         = Nat.iter n (adam_step d) (optimizer nb, variables nb)
      /\ nlls nb'
         = firstn i (nlls nb)
           ++ map (fun k =>
                     neg_log_likelihood_at d
                       (snd (Nat.iter k (adam_step d)
                                      (optimizer nb, variables nb))))
                  (seq 0 n).
Proof.
  induction n as [|n IH]; intros i nb Hlen.
  - exists nb. cbn. repeat split.
    + rewrite app_nil_r. reflexivity.
    + rewrite app_nil_r, firstn_all2 by lia. reflexivity.
  - assert (Hi : (i < length (nlls nb))%nat) by lia.
    destruct (train_step_runs i nb Hi) as (nb1 & Hrun & Hcalls & Hopt & Hnlls).
    assert (Hlen1 : length (nlls nb1) = (S i + n)%nat).
    { rewrite Hnlls, length_app, length_firstn. cbn [length].
      rewrite length_skipn. lia. }
    destruct (IH (S i) nb1 Hlen1) as (nb' & Hrun' & Hcalls' & Hopt' & Hnlls').
    exists nb'. split; [|split; [|split]].
    + cbn [for_range]. unfold bind. rewrite Hrun. exact Hrun'.
    + rewrite Hcalls', Hcalls. cbn [repeat concat].
      rewrite <- app_assoc. reflexivity.
    + rewrite Hopt', Hopt. rewrite Nat.iter_succ_r. reflexivity.
    + rewrite Hnlls', Hnlls, Hopt.
      rewrite (firstn_succ_written _ _ _ Hi), <- app_assoc.
      f_equal. cbn [seq map Nat.iter app]. f_equal.
      rewrite <- seq_shift, map_map.
      apply map_ext. intros k. rewrite Nat.iter_succ_r. reflexivity.
Qed.

(** The allocation followed by the loop, for any iteration budget. *)
Lemma alloc_then_loop (n : nat) (nb : notebook) :
  exists nb',
    (alloc_nlls n ;; for_range (train_step d) 0 n) nb = Returns (tt, nb')
    /\ calls nb' = calls nb ++ concat (repeat iteration_calls n)
    /\ optimizer_steps (calls nb') = (optimizer_steps (calls nb) + n)%nat
    /\ (optimizer nb', variables nb')
       = Nat.iter n (adam_step d) (optimizer nb, variables nb)
    /\ nlls nb'
       = map (fun k =>
                neg_log_likelihood_at d
                  (snd (Nat.iter k (adam_step d)
                                 (optimizer nb, variables nb))))
             (seq 0 n).
Proof.
  unfold bind, alloc_nlls.
  set (nb0 := {| variables := variables nb; optimizer := optimizer nb;
                 nlls := repeat 0 n; calls := calls nb |}).
  assert (Hlen : length (nlls nb0) = (0 + n)%nat)
    by (cbn; apply repeat_length).
  destruct (for_range_train_step n 0%nat nb0 Hlen)
    as (nb' & Hrun & Hcalls & Hopt & Hnlls).
  exists nb'. split; [exact Hrun|].
  split; [exact Hcalls|].
  split; [rewrite Hcalls; apply optimizer_steps_iterations|].
  split; [exact Hopt|].
  rewrite Hnlls. reflexivity.
Qed.

(** C9: from every notebook state and for every behaviour of the library
    calls, the fitting loop returns after exactly 1000 passes: its library
    calls are 1000 repetitions of (log-density, log-density, gradient,
    optimizer step), so it takes 1000 optimizer steps, one per pass; the
    optimizer and the variables are the 1000-fold iterate of that step, and
    entry [k] of [nlls] is the loss before pass [k].  No value computed in
    the loop decides whether it goes on. *)
Theorem training_loop_fixed_budget (nb : notebook) :
  exists nb',
    training_loop d nb = Returns (tt, nb')
    /\ calls nb' = calls nb ++ concat (repeat iteration_calls 1000)
    /\ optimizer_steps (calls nb') = (optimizer_steps (calls nb) + 1000)%nat
    /\ (optimizer nb', variables nb')
       = Nat.iter 1000 (adam_step d) (optimizer nb, variables nb)
    /\ nlls nb'
       = map (fun k =>
                neg_log_likelihood_at d
                  (snd (Nat.iter k (adam_step d)
                                 (optimizer nb, variables nb))))
             (seq 0 1000).
Proof.
  exact (alloc_then_loop 1000 nb).
Qed.

End Fitting.

(** * Further properties of the notebook's functions *)

(** ** The true function *)

(** The true function is odd: negating the index points negates the
    values. *)
Theorem sinusoid_odd (xs : list R) :
  sinusoid (Np.newaxis xs) = Returns (map (fun t => sin (3 * PI * t)) xs)
  /\ sinusoid (Np.newaxis (map Ropp xs))
     = Returns (map (fun t => - sin (3 * PI * t)) xs).
Proof.
  unfold sinusoid, Np.newaxis. cbn [ncols rows Nat.eqb].
  rewrite !map_map. cbn [nth].
  split; [reflexivity|].
  f_equal. apply map_ext. intros t.
  replace (3 * PI * - t) with (- (3 * PI * t)) by lra. apply sin_neg.
Qed.

(** ** The covariance function: shape and range *)

Lemma sqeuclidean_nonneg (u v : list R) : 0 <= sqeuclidean u v.
Proof.
  unfold sqeuclidean.
  induction (combine u v) as [|p l IH]; cbn [map fold_right]; [lra|].
  pose proof (pow2_ge_0 (fst p - snd p)). lra.
Qed.

(** [exponentiated_quadratic] raises exactly when the numbers of columns
    differ, and then a [ValueError]; otherwise the result is rectangular,
    with one row per row of [xa] and one column per row of [xb]. *)
Theorem exponentiated_quadratic_shape (xa xb : ndarray2) :
  match exponentiated_quadratic xa xb with
  | Returns m =>
      ncols xa = ncols xb
      /\ length (rows m) = length (rows xa)
      /\ ncols m = length (rows xb)
      /\ rectangular m
  | Raises cls => cls = "ValueError"%string /\ ncols xa <> ncols xb
  end.
Proof.
  unfold exponentiated_quadratic, cdist_sqeuclidean.
  destruct (Nat.eqb_spec (ncols xa) (ncols xb)) as [Heq|Hne].
  - cbn [ncols rows]. split; [exact Heq|].
    split; [rewrite !length_map; reflexivity|].
    split; [reflexivity|].
    unfold rectangular. cbn [ncols rows].
    apply Forall_forall. intros r Hr.
    apply in_map_iff in Hr. destruct Hr as (r0 & <- & Hr0).
    apply in_map_iff in Hr0. destruct Hr0 as (u & <- & _).
    rewrite !length_map. reflexivity.
  - split; [reflexivity | exact Hne].
Qed.

(** Every covariance the function returns lies between [0] and [1]. *)
Theorem exponentiated_quadratic_unit_interval (xa xb m : ndarray2) :
  exponentiated_quadratic xa xb = Returns m ->
  Forall (Forall (fun t => 0 <= t <= 1)) (rows m).
Proof.
  unfold exponentiated_quadratic, cdist_sqeuclidean.
  destruct (Nat.eqb (ncols xa) (ncols xb)); [|discriminate].
  intros Hm. injection Hm as <-. cbn [rows].
  rewrite map_map.
  apply Forall_forall. intros r Hr.
  apply in_map_iff in Hr. destruct Hr as (u & <- & _).
  rewrite map_map.
  apply Forall_forall. intros t Ht.
  apply in_map_iff in Ht. destruct Ht as (v & <- & _).
  split; [left; apply exp_pos|].
  pose proof (sqeuclidean_nonneg u v) as Hd.
  rewrite <- exp_0.
  destruct (Req_dec (sqeuclidean u v) 0) as [H0|Hn].
  - rewrite H0. right. f_equal. lra.
  - left. apply exp_increasing. lra.
Qed.

Lemma exponentiated_quadratic_unit_interval_witness :
  exponentiated_quadratic (mk_ndarray2 1 [[0]]) (mk_ndarray2 1 [[1]])
  = Returns (mk_ndarray2 1 [[exp (- 0.5 * ((0 - 1) ^ 2 + 0))]])
  /\ Forall (Forall (fun t => 0 <= t <= 1))
            (rows (mk_ndarray2 1 [[exp (- 0.5 * ((0 - 1) ^ 2 + 0))]])).
Proof.
  split; [reflexivity|].
  apply (exponentiated_quadratic_unit_interval
           (mk_ndarray2 1 [[0]]) (mk_ndarray2 1 [[1]])).
  reflexivity.
Defined.

(** ** The covariance function: symmetry *)

Lemma sqeuclidean_cons (a b : R) (u v : list R) :
  sqeuclidean (a :: u) (b :: v) = (a - b) ^ 2 + sqeuclidean u v.
Proof. reflexivity. Qed.

Lemma sqeuclidean_sym (u v : list R) : sqeuclidean u v = sqeuclidean v u.
Proof.
  revert v. induction u as [|a u IH]; intros [|b v]; try reflexivity.
  rewrite !sqeuclidean_cons, IH. ring.
Qed.

Lemma sqeuclidean_zero_iff (u v : list R) :
  length u = length v -> (sqeuclidean u v = 0 <-> u = v).
Proof.
  revert v. induction u as [|a u IH]; intros [|b v] Hlen;
    try discriminate Hlen.
  - split; reflexivity.
  - injection Hlen as Hlen. rewrite sqeuclidean_cons.
    pose proof (sqeuclidean_nonneg u v) as Hd.
    pose proof (pow2_ge_0 (a - b)) as Hp.
    split.
    + intros H0.
      assert (Hab : (a - b) ^ 2 = 0) by lra.
      assert (Huv : sqeuclidean u v = 0) by lra.
      apply IH in Huv; [|exact Hlen]. subst v.
      f_equal. nra.
    + intros Heq. injection Heq as -> ->.
      assert (Huv : sqeuclidean v v = 0) by (apply IH; [exact Hlen | reflexivity]).
      rewrite Huv. ring.
Qed.

Lemma map_nth_seq {A B : Type} (f : A -> B) (l : list A) (d : A) :
  map (fun j => f (nth j l d)) (seq 0 (length l)) = map f l.
Proof.
  induction l as [|a l IH]; [reflexivity|].
  cbn [length seq map nth]. f_equal.
  rewrite <- seq_shift, map_map. exact IH.
Qed.

Lemma nth_map_in_range {A B : Type} (f : A -> B) (l : list A)
    (j : nat) (d : A) (e : B) :
  (j < length l)%nat -> nth j (map f l) e = f (nth j l d).
Proof.
  intros Hj. rewrite (nth_indep _ e (f d)) by (rewrite length_map; exact Hj).
  apply map_nth.
Qed.

Lemma exponentiated_quadratic_returns_ncols (xa xb m : ndarray2) :
  exponentiated_quadratic xa xb = Returns m -> ncols xa = ncols xb.
Proof.
  unfold exponentiated_quadratic, cdist_sqeuclidean.
  destruct (Nat.eqb_spec (ncols xa) (ncols xb)) as [Heq|]; [|discriminate].
  intros _. exact Heq.
Qed.

(** Entry [(i, j)] of the returned matrix, for indices in range. *)
Lemma entry_exponentiated_quadratic (xa xb m : ndarray2) (i j : nat) :
  exponentiated_quadratic xa xb = Returns m ->
  (i < length (rows xa))%nat -> (j < length (rows xb))%nat ->
  entry m i j
  = exp (- 0.5 * sqeuclidean (nth i (rows xa) []) (nth j (rows xb) [])).
Proof.
  unfold exponentiated_quadratic, cdist_sqeuclidean.
  destruct (Nat.eqb (ncols xa) (ncols xb)); [|discriminate].
  intros Hm Hi Hj. injection Hm as <-. unfold entry. cbn [rows].
  rewrite map_map.
  rewrite (nth_map_in_range _ (rows xa) i [] []) by exact Hi.
  rewrite map_map.
  rewrite (nth_map_in_range _ (rows xb) j [] 0) by exact Hj.
  reflexivity.
Qed.

Lemma exponentiated_quadratic_swap (xa xb m : ndarray2) :
  exponentiated_quadratic xa xb = Returns m ->
  exponentiated_quadratic xb xa = Returns (transpose m).
Proof.
  unfold exponentiated_quadratic, cdist_sqeuclidean.
  destruct (Nat.eqb_spec (ncols xa) (ncols xb)) as [Heq|]; [|discriminate].
  intros Hm. injection Hm as <-.
  rewrite <- Heq, Nat.eqb_refl.
  unfold transpose. cbn [ncols rows].
  f_equal. f_equal.
  - rewrite !length_map. reflexivity.
  - rewrite !map_map.
    rewrite <- (map_nth_seq
                  (fun v => map (fun t => exp (- 0.5 * t))
                                (map (sqeuclidean v) (rows xa)))
                  (rows xb) []).
    apply map_ext_in. intros j Hj. apply in_seq in Hj.
    rewrite !map_map. apply map_ext. intros u.
    rewrite (map_map (sqeuclidean u)).
    rewrite (nth_map_in_range _ (rows xb) j [] 0) by lia.
    rewrite sqeuclidean_sym. reflexivity.
Qed.

(** Swapping the two arguments transposes the result:
    [k(xb, xa) = k(xa, xb)^T]. *)
Theorem exponentiated_quadratic_transpose (xa xb m : ndarray2) :
  exponentiated_quadratic xa xb = Returns m ->
  exponentiated_quadratic xb xa = Returns (transpose m).
Proof.
  apply exponentiated_quadratic_swap.
Qed.

Lemma exponentiated_quadratic_transpose_witness :
  exponentiated_quadratic (mk_ndarray2 1 [[0]; [1]]) (mk_ndarray2 1 [[2]])
  = Returns (mk_ndarray2 1 [[exp (- 0.5 * ((0 - 2) ^ 2 + 0))];
                            [exp (- 0.5 * ((1 - 2) ^ 2 + 0))]])
  /\ exponentiated_quadratic (mk_ndarray2 1 [[2]]) (mk_ndarray2 1 [[0]; [1]])
     = Returns (transpose
                  (mk_ndarray2 1 [[exp (- 0.5 * ((0 - 2) ^ 2 + 0))];
                                  [exp (- 0.5 * ((1 - 2) ^ 2 + 0))]])).
Proof.
  split; [reflexivity|].
  apply exponentiated_quadratic_transpose. reflexivity.
Defined.

(** ** The hyperparameters *)

(** Whatever values the three variables take, the Gaussian process whose
    likelihood [neg_log_likelihood] evaluates has a strictly positive
    amplitude, length scale and observation noise variance, and the
    regression model built after training is conditioned with the same
    kernel, noise variance and training data. *)
Theorem hyperparameters_strictly_positive `{TFP} (d : Data) (v : Variables) :
  neg_log_likelihood_at d v = - log_prob (gp d v) (observations_ d)
  /\ 0 < ExponentiatedQuadratic.amplitude (GaussianProcess.kernel (gp d v))
  /\ 0 < ExponentiatedQuadratic.length_scale (GaussianProcess.kernel (gp d v))
  /\ 0 < GaussianProcess.observation_noise_variance (gp d v)
  /\ GaussianProcessRegressionModel.kernel (gprm d v)
     = GaussianProcess.kernel (gp d v)
  /\ GaussianProcessRegressionModel.observation_noise_variance (gprm d v)
     = GaussianProcess.observation_noise_variance (gp d v)
  /\ GaussianProcessRegressionModel.observation_index_points (gprm d v)
     = GaussianProcess.index_points (gp d v)
  /\ GaussianProcessRegressionModel.observations (gprm d v)
     = observations_ d.
Proof.
  split; [reflexivity|].
  do 3 (split; [apply constrain_pos|]).
  repeat split.
Qed.

Lemma broadcast_equal (n : nat) (c : list R) :
  length c = n -> broadcast_to n c = c.
Proof.
  intros Hc. unfold broadcast_to. rewrite Hc, Nat.eqb_refl. reflexivity.
Qed.

(** Chains of one common length are taken as they are. *)
Lemma gprm_mcmc_equal_lengths (d : Data) (a l nv : list R) :
  length a = length l -> length l = length nv ->
  gprm_mcmc d a l nv
  = Some (map (fun s =>
                 GaussianProcessRegressionModel.make
                   (ExponentiatedQuadratic.make (fst (fst s)) (snd (fst s)))
                   predictive_index_points_ (observation_index_points_ d)
                   (observations_ d) (snd s) 0)
              (combine (combine a l) nv)).
Proof.
  intros Hal Hln. unfold gprm_mcmc, broadcast_size.
  rewrite <- Hal, Nat.eqb_refl. rewrite <- Hln, <- Hal, Nat.eqb_refl.
  rewrite !broadcast_equal by congruence. reflexivity.
Qed.

(** The [k]-th member of the batch built from the chains uses the [k]-th
    sample of each chain, and the training data. *)
Theorem gprm_mcmc_nth (d : Data)
    (amplitudes length_scales observation_noise_variances : list R)
    (k : nat) :
  length amplitudes = length length_scales ->
  length length_scales = length observation_noise_variances ->
  (k < length amplitudes)%nat ->
  exists b g,
    gprm_mcmc d amplitudes length_scales observation_noise_variances
    = Some b
    /\ nth_error b k = Some g
    /\ ExponentiatedQuadratic.amplitude
         (GaussianProcessRegressionModel.kernel g) = nth k amplitudes 0
    /\ ExponentiatedQuadratic.length_scale
         (GaussianProcessRegressionModel.kernel g) = nth k length_scales 0
    /\ GaussianProcessRegressionModel.observation_noise_variance g
       = nth k observation_noise_variances 0
    /\ GaussianProcessRegressionModel.observation_index_points g
       = observation_index_points_ d
    /\ GaussianProcessRegressionModel.observations g = observations_ d.
Proof.
  intros Hal Hln Hk.
  rewrite (gprm_mcmc_equal_lengths d _ _ _ Hal Hln).
  set (L := combine (combine amplitudes length_scales)
                    observation_noise_variances).
  assert (HL : (k < length L)%nat).
  { unfold L. rewrite !length_combine. lia. }
  eexists. eexists. split; [reflexivity|].
  rewrite nth_error_map.
  rewrite (nth_error_nth' L (0, 0, 0) HL). cbn [option_map].
  split; [reflexivity|].
  unfold L.
  rewrite combine_nth by (rewrite length_combine; lia).
  rewrite combine_nth by exact Hal.
  cbn. repeat split.
Qed.

Lemma gprm_mcmc_nth_witness :
  length [1; 2] = length [3; 4]
  /\ length [3; 4] = length [5; 6]
  /\ lt 1 (length [1; 2])
  /\ exists b g,
       gprm_mcmc (mk_Data (mk_ndarray2 1 [[0]]) [0]) [1; 2] [3; 4] [5; 6]
       = Some b
       /\ nth_error b 1 = Some g
       /\ ExponentiatedQuadratic.amplitude
            (GaussianProcessRegressionModel.kernel g) = nth 1 [1; 2] 0
       /\ ExponentiatedQuadratic.length_scale
            (GaussianProcessRegressionModel.kernel g) = nth 1 [3; 4] 0
       /\ GaussianProcessRegressionModel.observation_noise_variance g
          = nth 1 [5; 6] 0
       /\ GaussianProcessRegressionModel.observation_index_points g
          = observation_index_points_ (mk_Data (mk_ndarray2 1 [[0]]) [0])
       /\ GaussianProcessRegressionModel.observations g
          = observations_ (mk_Data (mk_ndarray2 1 [[0]]) [0]).
Proof.
  split; [reflexivity|]. split; [reflexivity|].
  split; [cbn; lia|].
  apply gprm_mcmc_nth; [reflexivity | reflexivity | cbn; lia].
Defined.

(** ** Training inputs and the prediction grid *)

Lemma draws_Forall {S : Type} (gen : S -> R * S) (P : R -> Prop) :
  (forall t, P (fst (gen t))) ->
  forall (n : nat) (s : S), Forall P (fst (Np.draws gen n s)).
Proof.
  intros HP. induction n as [|n IH]; intros s; cbn; [constructor|].
  pose proof (HP s) as Hs. destruct (gen s) as [x s1]. specialize (IH s1).
  destruct (Np.draws gen n s1) as [xs s2]. cbn in *.
  constructor; assumption.
Qed.

Lemma linspace_nth (a b : R) (n k : nat) :
  (k < n)%nat ->
  nth k (Np.linspace a b n) 0 = a + INR k * ((b - a) / INR (n - 1)).
Proof.
  intros Hk. unfold Np.linspace.
  rewrite (nth_map_in_range _ (seq 0 n) k 0%nat 0)
    by (rewrite length_seq; exact Hk).
  rewrite seq_nth by exact Hk. reflexivity.
Qed.

Lemma entry_newaxis (l : list R) (i : nat) :
  (i < length l)%nat -> entry (Np.newaxis l) i 0 = nth i l 0.
Proof.
  intros Hi. unfold entry, Np.newaxis. cbn [rows].
  rewrite (nth_map_in_range _ l i 0 []) by exact Hi. reflexivity.
Qed.

Lemma predictive_grid_ends :
  entry predictive_index_points_ 0 0 = -1.2
  /\ entry predictive_index_points_ 199 0 = 1.2.
Proof.
  unfold predictive_index_points_.
  assert (Hlen : length (Np.linspace (-1.2) 1.2 200) = 200%nat).
  { unfold Np.linspace. rewrite length_map, length_seq. reflexivity. }
  split.
  - rewrite entry_newaxis by (rewrite Hlen; lia).
    rewrite linspace_nth by lia.
    change (INR 0) with 0. lra.
  - rewrite entry_newaxis by (rewrite Hlen; lia).
    rewrite linspace_nth by lia.
    change (200 - 1)%nat with 199%nat.
    assert (Hx : 0 < INR 199) by (apply lt_0_INR; lia).
    generalize dependent (INR 199). intros x Hx.
    assert (E : forall c : R, x * (c / x) = c) by (intros c; field; lra).
    rewrite E. lra.
Qed.

(** When the uniform generator draws from [[0, 1)], [generate_1d_data]
    returns [n] index points of one column and [n] observations, every index
    point lies in [[-1, 1)], and hence between the first and the last of the
    200 points of the prediction grid.  The only call that does not return
    is the one with variance [-0.0], which fails with [ValueError]. *)
Theorem training_inputs_within_grid `{Np.RandomState}
    (n : nat) (v : nonneg_float) (s : Np.rng) :
  (forall t : Np.rng, 0 <= fst (Np.random_sample t) < 1) ->
  match fst (generate_1d_data n v s) with
  | Returns (idx, obs) =>
      ncols idx = 1%nat
      /\ rectangular idx
      /\ length (rows idx) = n
      /\ length obs = n
      /\ Forall (fun r =>
                  exists x : R,
                    r = [x] /\ -1 <= x < 1
                    /\ entry predictive_index_points_ 0 0 <= x
                       <= entry predictive_index_points_ 199 0)
                (rows idx)
  | Raises cls => v = MinusZero /\ cls = "ValueError"%string
  end.
Proof.
  intros Hu. rewrite generate_1d_data_eq.
  destruct predictive_grid_ends as [Hlo Hhi]. rewrite Hlo, Hhi.
  pose proof (draws_Forall Np.random_sample (fun u => 0 <= u < 1) Hu n s)
    as Hus.
  pose proof (draws_length Np.random_sample n s) as Hlu.
  set (us := fst (Np.draws Np.random_sample n s)) in *.
  pose proof (draws_length Np.standard_normal n
                (snd (Np.draws Np.random_sample n s))) as Hlz.
  assert (Hidx :
    Forall (fun r => exists x : R, r = [x] /\ -1 <= x < 1
                                   /\ -1.2 <= x <= 1.2)
           (map (fun v0 : R => [v0])
                (map (fun u => -1 + (1 - -1) * u) us))).
  { apply Forall_forall. intros r Hr.
    apply in_map_iff in Hr. destruct Hr as (x & <- & Hx).
    apply in_map_iff in Hx. destruct Hx as (u & <- & Hin).
    rewrite Forall_forall in Hus. specialize (Hus u Hin).
    eexists. split; [reflexivity|]. lra. }
  assert (Hrect :
    rectangular (Np.newaxis (map (fun u => -1 + (1 - -1) * u) us))).
  { unfold rectangular, Np.newaxis. cbn [ncols rows].
    apply Forall_forall. intros r Hr.
    apply in_map_iff in Hr. destruct Hr as (x & <- & _). reflexivity. }
  destruct v as [| |r]; cbn [fst]; [| split; reflexivity |].
  - split; [reflexivity|]. split; [exact Hrect|].
    unfold Np.newaxis. cbn [rows]. split; [|split; [|exact Hidx]].
    + rewrite !length_map. exact Hlu.
    + rewrite length_map, length_combine, length_map, Hlu, Hlz. lia.
  - split; [reflexivity|]. split; [exact Hrect|].
    unfold Np.newaxis. cbn [rows]. split; [|split; [|exact Hidx]].
    + rewrite !length_map. exact Hlu.
    + rewrite length_map, length_combine, length_map, Hlu, Hlz. lia.
Qed.

Lemma training_inputs_within_grid_witness :
  (forall t : @Np.rng fixed_draws,
      0 <= fst (@Np.random_sample fixed_draws t) < 1)
  /\ match fst (@generate_1d_data fixed_draws 2 PlusZero 0%nat) with
     | Returns (idx, obs) =>
         ncols idx = 1%nat
         /\ rectangular idx
         /\ length (rows idx) = 2%nat
         /\ length obs = 2%nat
         /\ Forall (fun r =>
                     exists x : R,
                       r = [x] /\ -1 <= x < 1
                       /\ entry predictive_index_points_ 0 0 <= x
                          <= entry predictive_index_points_ 199 0)
                   (rows idx)
     | Raises cls => PlusZero = MinusZero /\ cls = "ValueError"%string
     end.
Proof.
  assert (Hu : forall t : @Np.rng fixed_draws,
             0 <= fst (@Np.random_sample fixed_draws t) < 1)
    by (intros t; cbn; lra).
  split; [exact Hu|].
  exact (@training_inputs_within_grid fixed_draws 2 PlusZero 0%nat Hu).
Defined.

(** ** The loss array *)

Lemma setitem_out_of_range (a : list R) (i : nat) (v : R) :
  (length a <= i)%nat -> setitem a i v = None.
Proof.
  revert i. induction a as [|h t IH]; intros i Hi; [reflexivity|].
  destruct i as [|k]; cbn in Hi; [lia|].
  cbn [setitem]. rewrite IH by lia. reflexivity.
Qed.

Section LossArray.

Context `{L : TFP}.
Variable d : Data.

Lemma train_step_index_error (i : nat) (nb : notebook) :
  (length (nlls nb) <= i)%nat ->
  train_step d i nb = Raises "IndexError".
Proof.
  intros Hi.
  unfold train_step, neg_log_likelihood, store_nll, record_call, bind. cbn.
  rewrite (setitem_out_of_range _ _ _ Hi). reflexivity.
Qed.

(** A loop that runs past the end of [nlls] raises [IndexError]: when the
    array has fewer than [start + count] entries and at least one pass is
    asked for, the passes do not complete. *)
Theorem for_range_index_error (count : nat) :
  forall (start : nat) (nb : notebook),
    (length (nlls nb) < start + count)%nat -> (0 < count)%nat ->
    for_range (train_step d) start count nb = Raises "IndexError".
Proof.
  induction count as [|k IH]; intros start nb Hlen Hpos; [lia|].
  cbn [for_range]. unfold bind.
  destruct (Nat.lt_ge_cases start (length (nlls nb))) as [Hin|Hout].
  - destruct (train_step_runs d start nb Hin)
      as (nb1 & Hrun & _ & _ & Hnlls).
    rewrite Hrun.
    assert (Hlen1 : length (nlls nb1) = length (nlls nb)).
    { rewrite Hnlls, length_app, length_firstn. cbn [length].
      rewrite length_skipn. lia. }
    apply IH; rewrite ?Hlen1; lia.
  - rewrite (train_step_index_error start nb Hout). reflexivity.
Qed.

End LossArray.

Lemma for_range_index_error_witness :
  lt (length (@nlls constant_library
                (@mk_notebook constant_library
                   (mk_Variables 1 1 1) tt [0] [])))
     (0 + 2)
  /\ lt 0 2
  /\ @for_range constant_library
       (@train_step constant_library (mk_Data (mk_ndarray2 1 [[0]]) [0]))
       0 2
       (@mk_notebook constant_library (mk_Variables 1 1 1) tt [0] [])
     = Raises "IndexError".
Proof.
  assert (H1 : lt (length (@nlls constant_library
                      (@mk_notebook constant_library
                         (mk_Variables 1 1 1) tt [0] [])))
                  (0 + 2)) by (cbn; lia).
  assert (H2 : lt 0 2) by lia.
  split; [exact H1|]. split; [exact H2|].
  exact (@for_range_index_error constant_library
           (mk_Data (mk_ndarray2 1 [[0]]) [0]) 2 0%nat _ H1 H2).
Defined.

(** ** The summary of the posterior samples *)












(** ** The plotted covariance matrix *)

(** The covariance matrix of an array with itself, as plotted, is square
    and symmetric and has ones on its diagonal. *)
Theorem exponentiated_quadratic_self (x m : ndarray2) :
  exponentiated_quadratic x x = Returns m ->
  transpose m = m
  /\ ncols m = length (rows m)
  /\ forall i : nat, (i < length (rows x))%nat -> entry m i i = 1.
Proof.
  intros Hm.
  pose proof (exponentiated_quadratic_swap x x m Hm) as Hswap.
  rewrite Hm in Hswap. injection Hswap as Hsym.
  split; [symmetry; exact Hsym|].
  split.
  - rewrite Hsym at 1. reflexivity.
  - intros i Hi.
    rewrite (entry_exponentiated_quadratic x x m i i Hm Hi Hi).
    assert (H0 : sqeuclidean (nth i (rows x) []) (nth i (rows x) []) = 0)
      by (apply sqeuclidean_zero_iff; reflexivity).
    rewrite H0, <- exp_0. f_equal. lra.
Qed.

Lemma exponentiated_quadratic_self_witness :
  exponentiated_quadratic (mk_ndarray2 1 [[0]; [1]]) (mk_ndarray2 1 [[0]; [1]])
  = Returns (mk_ndarray2 2
               [[exp (- 0.5 * ((0 - 0) ^ 2 + 0));
                 exp (- 0.5 * ((0 - 1) ^ 2 + 0))];
                [exp (- 0.5 * ((1 - 0) ^ 2 + 0));
                 exp (- 0.5 * ((1 - 1) ^ 2 + 0))]])
  /\ entry (mk_ndarray2 2
              [[exp (- 0.5 * ((0 - 0) ^ 2 + 0));
                exp (- 0.5 * ((0 - 1) ^ 2 + 0))];
               [exp (- 0.5 * ((1 - 0) ^ 2 + 0));
                exp (- 0.5 * ((1 - 1) ^ 2 + 0))]]) 1 1 = 1.
Proof.
  split; [reflexivity|].
  apply (proj2 (proj2 (exponentiated_quadratic_self
                         (mk_ndarray2 1 [[0]; [1]]) _ eq_refl))).
  cbn. lia.
Defined.

(** ** The posterior predictive models *)










Section Conditioning.

Context `{L : TFP}.
Variable k : ExponentiatedQuadratic.t.
Variable X : list (list R).








End Conditioning.






